(** * The statistical testing cascade, embedded and verified

    Source: [statistical_testing_cascade_function_updated.py], the single
    function [testingCcascade(sample1, sample2, alpha, paired)].

    The function is a straight-line sequence of [if] statements over a few
    local variables; the statistical tests themselves are calls into
    [scipy.stats].  The embedding keeps these three ingredients apart:

    - numbers are IEEE binary64 floats, as Python's [float] is;
    - the calls into [scipy.stats] are the events of a small free monad
      [prog]: the cascade is a tree of calls, and an interpreter feeds it the
      p-values (or the exception) each call produces and logs the calls;
    - the local variables are a record of optional values: a local that was
      never assigned reads as [UnboundLocalError], as in Python. *)

From Stdlib Require Import Bool String List ZArith Lia.
From Stdlib Require Import Floats.
Import ListNotations.

Local Open Scope string_scope.
Local Open Scope list_scope.

(* A decimal literal such as 0.05 denotes the nearest binary64 value, as it
   does in Python. *)
Set Warnings "-inexact-float".

(** ** Numbers and samples *)

(** Python's [a > b] on floats. *)
Definition gtb (a b : float) : bool := PrimFloat.ltb b a.

(** A sample is a one-dimensional numpy array of floats, as the data the
    source file itself feeds the function ([stats.norm.rvs(size = 50, ...)]);
    it is on arrays that [sample1 - sample2] of the paired branch is a
    subtraction. *)
Definition ndarray := list float.

Fixpoint zip_sub (a b : ndarray) : ndarray :=
  match a, b with
  | x :: a', y :: b' => PrimFloat.sub x y :: zip_sub a' b'
  | _, _ => []
  end.

(** numpy's [a - b] on one-dimensional arrays: element-wise on equal shapes, a
    length-one operand is broadcast, any other pair of shapes is a
    [ValueError] ([None] here). *)
Definition ndarray_sub (a b : ndarray) : option ndarray :=
  if Nat.eqb (length a) (length b) then Some (zip_sub a b)
  else match a, b with
       | _, [y] => Some (map (fun x => PrimFloat.sub x y) a)
       | [x], _ => Some (map (fun y => PrimFloat.sub x y) b)
       | _, _ => None
       end.

(** ** The calls into scipy.stats *)

(** One constructor per primitive the source calls, with the arguments of the
    call; each call stands for [stats.<name>(...).pvalue]. *)
Inductive call : Type :=
| shapiro (sample : ndarray)
| bartlett (sample1 sample2 : ndarray)
| ttest_ind (sample1 sample2 : ndarray) (equal_var : bool)
| mannwhitneyu (sample1 sample2 : ndarray)
| ttest_1samp (sample : ndarray) (popmean : float)
| wilcoxon (sample : ndarray).

(** What a primitive does when called: it hands back a p-value, or raises. The
    string is the primitive's own exception, which the cascade never looks
    at. *)
Definition answer : Type := (float + string)%type.

(** Programs over the primitives: return, or call and continue with the
    p-value. *)
Inductive prog (A : Type) : Type :=
| Ret (a : A)
| Call (c : call) (k : float -> prog A).

Arguments Ret {A} a.
Arguments Call {A} c k.

Fixpoint bindp {A B} (m : prog A) (f : A -> prog B) : prog B :=
  match m with
  | Ret a => f a
  | Call c k => Call c (fun v => bindp (k v) f)
  end.

(** ** Local variables and exceptions of the cascade *)

Record locals : Type := mkLocals {
  p1 : option float;
  p2 : option float;
  normality : option bool;
  p : option float;
  homoscedasticity : option bool;
  sigTest : option string;
  diff : option ndarray
}.

Definition no_locals : locals :=
  mkLocals None None None None None None None.

(** Exceptions raised by the code of the cascade itself (as opposed to the
    ones a primitive raises). *)
Inductive exn : Type :=
| Exception (msg : string)
| UnboundLocalError (name : string)
| ValueError (msg : string).

Inductive result (A : Type) : Type :=
| Ok (a : A) (l : locals)
| Err (e : exn) (l : locals).

Arguments Ok {A} a l.
Arguments Err {A} e l.

(** Statements and expressions: from the locals to a program that ends with a
    value or an exception, and the locals at that point. *)
Definition M (A : Type) : Type := locals -> prog (result A).

Definition ret {A} (a : A) : M A := fun l => Ret (Ok a l).

Definition raise {A} (e : exn) : M A := fun l => Ret (Err e l).

Definition bind {A B} (m : M A) (f : A -> M B) : M B :=
  fun l => bindp (m l)
             (fun r => match r with
                       | Ok a l' => f a l'
                       | Err e l' => Ret (Err e l')
                       end).

Definition pvalue (c : call) : M float :=
  fun l => Call c (fun v => Ret (Ok v l)).

Declare Scope py_scope.
Delimit Scope py_scope with py.

Notation "x <- c1 ;; c2" := (bind c1 (fun x => c2))
  (at level 61, c1 at next level, right associativity) : py_scope.
Notation "c1 ;; c2" := (bind c1 (fun _ => c2))
  (at level 61, right associativity) : py_scope.

Local Open Scope py_scope.

(** Reading a local: [UnboundLocalError] when it was never assigned. *)
Definition read {A} (name : string) (field : locals -> option A) : M A :=
  fun l => match field l with
           | Some v => Ret (Ok v l)
           | None => Ret (Err (UnboundLocalError name) l)
           end.

Definition get_p1 : M float := read "p1" p1.
Definition get_p2 : M float := read "p2" p2.
Definition get_normality : M bool := read "normality" normality.
Definition get_p : M float := read "p" p.
Definition get_homoscedasticity : M bool := read "homoscedasticity" homoscedasticity.
Definition get_sigTest : M string := read "sigTest" sigTest.
Definition get_diff : M ndarray := read "diff" diff.

Definition set_p1 (v : float) : M unit := fun l =>
  Ret (Ok tt (mkLocals (Some v) (p2 l) (normality l) (p l)
                       (homoscedasticity l) (sigTest l) (diff l))).
Definition set_p2 (v : float) : M unit := fun l =>
  Ret (Ok tt (mkLocals (p1 l) (Some v) (normality l) (p l)
                       (homoscedasticity l) (sigTest l) (diff l))).
Definition set_normality (v : bool) : M unit := fun l =>
  Ret (Ok tt (mkLocals (p1 l) (p2 l) (Some v) (p l)
                       (homoscedasticity l) (sigTest l) (diff l))).
Definition set_p (v : float) : M unit := fun l =>
  Ret (Ok tt (mkLocals (p1 l) (p2 l) (normality l) (Some v)
                       (homoscedasticity l) (sigTest l) (diff l))).
Definition set_homoscedasticity (v : bool) : M unit := fun l =>
  Ret (Ok tt (mkLocals (p1 l) (p2 l) (normality l) (p l)
                       (Some v) (sigTest l) (diff l))).
Definition set_sigTest (v : string) : M unit := fun l =>
  Ret (Ok tt (mkLocals (p1 l) (p2 l) (normality l) (p l)
                       (homoscedasticity l) (Some v) (diff l))).
Definition set_diff (v : ndarray) : M unit := fun l =>
  Ret (Ok tt (mkLocals (p1 l) (p2 l) (normality l) (p l)
                       (homoscedasticity l) (sigTest l) (Some v))).

(** Python's [a and b] and [not a] on booleans: [b] is evaluated only when
    [a] is true. *)
Definition and_ (a b : M bool) : M bool :=
  x <- a ;; if x then b else ret false.

Definition not_ (a : M bool) : M bool :=
  x <- a ;; ret (negb x).

(** [if c: t else: e] and [if c: t]. *)
Definition if_ (c : M bool) (t e : M unit) : M unit :=
  x <- c ;; if x then t else e.

Definition when_ (c : M bool) (t : M unit) : M unit :=
  if_ c t (ret tt).

(** ** The cascade *)

(** Lines 30 to 71: [if not paired: ...]. *)
Definition unpaired (sample1 sample2 : ndarray) (alpha : float)
  : M (float * string) :=
  (v <- pvalue (shapiro sample1) ;; set_p1 v) ;;
  (v <- pvalue (shapiro sample2) ;; set_p2 v) ;;
  if_ (and_ (a <- get_p1 ;; ret (gtb a alpha))
            (b <- get_p2 ;; ret (gtb b alpha)))
      (set_normality true)
      (set_normality false) ;;
  when_ get_normality
    ((v <- pvalue (bartlett sample1 sample2) ;; set_p v) ;;
     if_ (x <- get_p ;; ret (PrimFloat.ltb x alpha))
         (set_homoscedasticity false)
         (set_homoscedasticity true)) ;;
  when_ (and_ get_normality get_homoscedasticity)
    (set_sigTest "t-test" ;;
     v <- pvalue (ttest_ind sample1 sample2 true) ;; set_p v) ;;
  when_ (and_ get_normality (not_ get_homoscedasticity))
    (set_sigTest "Welch-test" ;;
     v <- pvalue (ttest_ind sample1 sample2 false) ;; set_p v) ;;
  when_ (not_ get_normality)
    (set_sigTest "U-test" ;;
     v <- pvalue (mannwhitneyu sample1 sample2) ;; set_p v) ;;
  x <- get_p ;; s <- get_sigTest ;; ret (x, s).

(** Lines 74 to 103: [if paired: ...]. *)
Definition paired_ (sample1 sample2 : ndarray) (alpha : float)
  : M (float * string) :=
  when_ (ret (negb (Nat.eqb (length sample1) (length sample2))))
    (raise (Exception
              "Unable to perform paired tests, unequal sample sizes.")) ;;
  match ndarray_sub sample1 sample2 with
  | Some d => set_diff d
  | None => raise (ValueError "operands could not be broadcast together")
  end ;;
  (d <- get_diff ;; v <- pvalue (shapiro d) ;; set_p v) ;;
  if_ (x <- get_p ;; ret (PrimFloat.ltb x alpha))
      (set_normality false)
      (set_normality true) ;;
  when_ get_normality
    (set_sigTest "Paired t-test" ;;
     d <- get_diff ;; v <- pvalue (ttest_1samp d 0%float) ;; set_p v) ;;
  when_ (not_ get_normality)
    (set_sigTest "Wilcoxon test" ;;
     d <- get_diff ;; v <- pvalue (wilcoxon d) ;; set_p v) ;;
  x <- get_p ;; s <- get_sigTest ;; ret (x, s).

(** The function: [if not paired: ... return] followed by
    [if paired: ... return]; with a boolean flag the second test holds
    whenever it is reached. *)
Definition testingCcascade (sample1 sample2 : ndarray) (alpha : float)
    (paired : bool) : M (float * string) :=
  if negb paired then unpaired sample1 sample2 alpha
  else paired_ sample1 sample2 alpha.

(** ** Running a program against the primitives *)

(** How a program ends: with a value, or in the exception of the primitive
    call [c]. *)
Inductive outcome (A : Type) : Type :=
| Done (a : A)
| Failed (c : call) (e : string).

Arguments Done {A} a.
Arguments Failed {A} c e.

(** Deterministic primitives are a function from calls to answers. [exec]
    gives the calls made, in order, and the outcome. An exception of a
    primitive ends the run: the source has no [try]. *)
Fixpoint exec {A} (stats : call -> answer) (m : prog A)
  : list call * outcome A :=
  match m with
  | Ret a => ([], Done a)
  | Call c k =>
      match stats c with
      | inl v => let (tr, o) := exec stats (k v) in (c :: tr, o)
      | inr e => ([c], Failed c e)
      end
  end.

(** Primitives in general are a relation between calls and answers: the same
    call may be answered differently from one time to the next. *)
Inductive runs {A} (prim : call -> answer -> Prop)
  : prog A -> list call -> outcome A -> Prop :=
| runs_Ret a : runs prim (Ret a) [] (Done a)
| runs_Call c k v tr o :
    prim c (inl v) -> runs prim (k v) tr o -> runs prim (Call c k) (c :: tr) o
| runs_Failed c k e :
    prim c (inr e) -> runs prim (Call c k) [c] (Failed c e).

Definition deterministic (prim : call -> answer -> Prop) : Prop :=
  forall c a a', prim c a -> prim c a' -> a = a'.

(** A call of the function: the body starts with no local assigned. *)
Definition run (stats : call -> answer) (sample1 sample2 : ndarray)
    (alpha : float) (paired : bool)
  : list call * outcome (result (float * string)) :=
  exec stats (testingCcascade sample1 sample2 alpha paired no_locals).

(** The primitives all answer with a p-value. *)
Definition answering (stats : call -> answer) : Prop :=
  forall c, exists v, stats c = inl v.

(** ** Test doubles

    Deterministic stand-ins for the primitives, and small samples, on which
    the cascade can be evaluated. *)

(** Primitives that answer each kind of call with a fixed p-value. *)
Definition fixed (sw bt tt wt mw t1 wx : float) (c : call) : answer :=
  match c with
  | shapiro _ => inl sw
  | bartlett _ _ => inl bt
  | ttest_ind _ _ true => inl tt
  | ttest_ind _ _ false => inl wt
  | mannwhitneyu _ _ => inl mw
  | ttest_1samp _ _ => inl t1
  | wilcoxon _ => inl wx
  end.

(** A function seen as a relation. *)
Definition graph (stats : call -> answer) : call -> answer -> Prop :=
  fun c a => stats c = a.

Definition sampleA : ndarray := [1.5%float; 2.5%float; 4%float].
Definition sampleB : ndarray := [1%float; 2%float; 2.5%float; 7%float].
Definition sampleC : ndarray := [1%float; 3%float; 3.5%float].

Definition unequal_sizes : string :=
  "Unable to perform paired tests, unequal sample sizes.".

(** ** The calls of the cascade *)

(** The calls into scipy.stats written in the source, by mode: lines 33 to
    69 call the tests on the two samples, lines 83 to 101 call them on the
    difference. *)
Definition cascade_calls (sample1 sample2 : ndarray) (paired : bool)
  : list call :=
  if paired then
    [shapiro (zip_sub sample1 sample2);
     ttest_1samp (zip_sub sample1 sample2) 0%float;
     wilcoxon (zip_sub sample1 sample2)]
  else
    [shapiro sample1; shapiro sample2; bartlett sample1 sample2;
     ttest_ind sample1 sample2 true; ttest_ind sample1 sample2 false;
     mannwhitneyu sample1 sample2].

(** Primitives that are deterministic on the calls of [cs], and free to
    answer any other call differently each time. *)
Definition deterministic_on (prim : call -> answer -> Prop) (cs : list call)
  : Prop :=
  forall c a a', In c cs -> prim c a -> prim c a' -> a = a'.

(** [within cs m]: whatever the primitives answer, the program [m] makes
    calls of [cs] only. *)
Inductive within {A} (cs : list call) : prog A -> Prop :=
| within_Ret a : within cs (Ret a)
| within_Call c k :
    In c cs -> (forall v, within cs (k v)) -> within cs (Call c k).

(** Primitives whose one-sample tests answer anything at all, whatever the
    call, and whose other tests answer as [fixed] does. *)
Definition erratic_one_sample (c : call) (a : answer) : Prop :=
  match c with
  | ttest_1samp _ _ | wilcoxon _ => True
  | _ => fixed 0.5 0.5 0.75 0.625 0.25 0.5 0.125 c = a
  end.

(** ** Diagnostics and final tests *)

(** The name the source assigns to [sigTest] next to each final test (lines
    55-56, 62-63, 68-69, 94-95 and 100-101). The two diagnostics, Shapiro-Wilk
    and Bartlett, have none. *)
Definition label (c : call) : option string :=
  match c with
  | shapiro _ | bartlett _ _ => None
  | ttest_ind _ _ true => Some "t-test"
  | ttest_ind _ _ false => Some "Welch-test"
  | mannwhitneyu _ _ => Some "U-test"
  | ttest_1samp _ _ => Some "Paired t-test"
  | wilcoxon _ => Some "Wilcoxon test"
  end.

Definition diagnostic (c : call) : bool :=
  match label c with
  | None => true
  | Some _ => false
  end.

(** Primitives that raise on the final tests of the unpaired branch and
    answer the diagnostics. *)
Definition failing_finals (sw bt : float) (c : call) : answer :=
  match c with
  | shapiro _ => inl sw
  | bartlett _ _ => inl bt
  | _ => inr "ValueError"
  end.

(** Case analysis on everything a run branches on: the answers of the
    primitives and the comparisons. *)
Ltac cases :=
  repeat match goal with
         | H : context [match ?x with _ => _ end] |- _ => destruct x eqn:?
         | |- context [match ?x with _ => _ end] => destruct x eqn:?
         end.

(** Comparisons of exponents and mantissas, by cases. *)
Ltac cmp_cases :=
  repeat match goal with
         | H : context [PosDef.Pos.compare_cont Eq ?a ?b] |- _ =>
             change (PosDef.Pos.compare_cont Eq a b) with (Pos.compare a b) in H
         | |- context [PosDef.Pos.compare_cont Eq ?a ?b] =>
             change (PosDef.Pos.compare_cont Eq a b) with (Pos.compare a b)
         | H : context [Z.compare ?a ?b] |- _ =>
             destruct (Z.compare_spec a b)
         | |- context [Z.compare ?a ?b] =>
             destruct (Z.compare_spec a b)
         | H : context [Pos.compare ?a ?b] |- _ =>
             destruct (Pos.compare_spec a b)
         | |- context [Pos.compare ?a ?b] =>
             destruct (Pos.compare_spec a b)
         end.

(** A list of one to four calls, split at its last call. *)
Ltac split_last :=
  match goal with
  | |- exists pre c, [?a] = pre ++ [c] /\ _ => exists [], a
  | |- exists pre c, [?a; ?b] = pre ++ [c] /\ _ => exists [a], b
  | |- exists pre c, [?a; ?b; ?d] = pre ++ [c] /\ _ => exists [a; b], d
  | |- exists pre c, [?a; ?b; ?d; ?e] = pre ++ [c] /\ _ =>
      exists [a; b; d], e
  | |- exists pre, [?a] = pre ++ [_] /\ _ => exists []
  | |- exists pre, [?a; ?b] = pre ++ [_] /\ _ => exists [a]
  | |- exists pre, [?a; ?b; ?d] = pre ++ [_] /\ _ => exists [a; b]
  | |- exists pre, [?a; ?b; ?d; ?e] = pre ++ [_] /\ _ => exists [a; b; d]
  end.

(** * Facts on float comparisons *)

Lemma SFcompare_swap (x y : spec_float) :
  SFcompare y x = option_map CompOpp (SFcompare x y).
Proof.
  destruct x as [sx | sx | | sx mx ex], y as [sy | sy | | sy my ey];
    try destruct sx; try destruct sy; simpl; try reflexivity.
  all: rewrite (Z.compare_antisym ey ex);
    destruct (ey ?= ex)%Z; simpl; try reflexivity;
    rewrite (Pos.compare_cont_antisym mx my Eq); simpl;
    rewrite ?CompOpp_involutive; reflexivity.
Qed.

Lemma SFcompare_refl (x : spec_float) :
  SFcompare x x = None \/ SFcompare x x = Some Eq.
Proof.
  destruct x as [s | s | | s m e]; simpl; auto; destruct s; auto.
  - rewrite Z.compare_refl.
    change (Pos.compare_cont Eq m m) with (Pos.compare m m).
    rewrite Pos.compare_refl. auto.
  - rewrite Z.compare_refl.
    change (Pos.compare_cont Eq m m) with (Pos.compare m m).
    rewrite Pos.compare_refl. auto.
Qed.

Lemma SFcompare_None (x y : spec_float) :
  SFcompare x y = None -> x = S754_nan \/ y = S754_nan.
Proof.
  destruct x as [sx | sx | | sx mx ex], y as [sy | sy | | sy my ey];
    simpl; auto; discriminate.
Qed.

Lemma ltb_irrefl (x : float) : PrimFloat.ltb x x = false.
Proof.
  rewrite ltb_spec. unfold SFltb.
  destruct (SFcompare_refl (Prim2SF x)) as [H | H]; rewrite H; reflexivity.
Qed.

Lemma leb_not_ltb (a b : float) :
  PrimFloat.leb a b = true -> PrimFloat.ltb b a = false.
Proof.
  rewrite leb_spec, ltb_spec. unfold SFleb, SFltb.
  rewrite (SFcompare_swap (Prim2SF a) (Prim2SF b)).
  destruct (SFcompare (Prim2SF a) (Prim2SF b)) as [[ | | ] | ];
    simpl; congruence.
Qed.

Lemma ltb_asym (a b : float) :
  PrimFloat.ltb a b = true -> PrimFloat.ltb b a = false.
Proof.
  rewrite !ltb_spec. unfold SFltb.
  rewrite (SFcompare_swap (Prim2SF a) (Prim2SF b)).
  destruct (SFcompare (Prim2SF a) (Prim2SF b)) as [[ | | ] | ];
    simpl; congruence.
Qed.

Lemma is_nan_false (x : float) :
  PrimFloat.is_nan x = false -> Prim2SF x <> S754_nan.
Proof.
  unfold PrimFloat.is_nan. rewrite eqb_spec. unfold SFeqb.
  intros H E. rewrite E in H. simpl in H. discriminate.
Qed.

(** On numbers (no NaN) the order is total: what is not [>=] is [<]. *)
Lemma not_leb_ltb (a b : float) :
  PrimFloat.is_nan a = false -> PrimFloat.is_nan b = false ->
  PrimFloat.leb a b = false -> PrimFloat.ltb b a = true.
Proof.
  intros Ha Hb. apply is_nan_false in Ha. apply is_nan_false in Hb.
  rewrite leb_spec, ltb_spec. unfold SFleb, SFltb.
  rewrite (SFcompare_swap (Prim2SF a) (Prim2SF b)).
  destruct (SFcompare (Prim2SF a) (Prim2SF b)) as [[ | | ] | ] eqn:E;
    simpl; try congruence.
  apply SFcompare_None in E. tauto.
Qed.

(** * The two branches in closed form

    Each run of the cascade, as a function of what the primitives answer:
    the calls made, the value returned or the exception raised, and the
    locals at that point. *)

Lemma run_unpaired stats s1 s2 alpha :
  run stats s1 s2 alpha false =
  match stats (shapiro s1) with
  | inr e => ([shapiro s1], Failed (shapiro s1) e)
  | inl a =>
    match stats (shapiro s2) with
    | inr e => ([shapiro s1; shapiro s2], Failed (shapiro s2) e)
    | inl b =>
      if gtb a alpha && gtb b alpha then
        match stats (bartlett s1 s2) with
        | inr e => ([shapiro s1; shapiro s2; bartlett s1 s2],
                    Failed (bartlett s1 s2) e)
        | inl pb =>
          if PrimFloat.ltb pb alpha then
            match stats (ttest_ind s1 s2 false) with
            | inr e => ([shapiro s1; shapiro s2; bartlett s1 s2;
                         ttest_ind s1 s2 false],
                        Failed (ttest_ind s1 s2 false) e)
            | inl v => ([shapiro s1; shapiro s2; bartlett s1 s2;
                         ttest_ind s1 s2 false],
                        Done (Ok (v, "Welch-test")
                                 (mkLocals (Some a) (Some b) (Some true)
                                    (Some v) (Some false)
                                    (Some "Welch-test") None)))
            end
          else
            match stats (ttest_ind s1 s2 true) with
            | inr e => ([shapiro s1; shapiro s2; bartlett s1 s2;
                         ttest_ind s1 s2 true],
                        Failed (ttest_ind s1 s2 true) e)
            | inl v => ([shapiro s1; shapiro s2; bartlett s1 s2;
                         ttest_ind s1 s2 true],
                        Done (Ok (v, "t-test")
                                 (mkLocals (Some a) (Some b) (Some true)
                                    (Some v) (Some true)
                                    (Some "t-test") None)))
            end
        end
      else
        match stats (mannwhitneyu s1 s2) with
        | inr e => ([shapiro s1; shapiro s2; mannwhitneyu s1 s2],
                    Failed (mannwhitneyu s1 s2) e)
        | inl v => ([shapiro s1; shapiro s2; mannwhitneyu s1 s2],
                    Done (Ok (v, "U-test")
                             (mkLocals (Some a) (Some b) (Some false)
                                (Some v) None (Some "U-test") None)))
        end
    end
  end.
Proof.
  unfold run, testingCcascade. cbn -[gtb].
  destruct (stats (shapiro s1)) as [a | e]; cbn -[gtb]; [ | reflexivity ].
  destruct (stats (shapiro s2)) as [b | e]; cbn -[gtb]; [ | reflexivity ].
  destruct (gtb a alpha); cbn -[gtb]; [ destruct (gtb b alpha); cbn -[gtb] | ].
  - destruct (stats (bartlett s1 s2)) as [pb | e]; cbn -[gtb]; [ | reflexivity ].
    destruct (PrimFloat.ltb pb alpha); cbn -[gtb].
    + destruct (stats (ttest_ind s1 s2 false)); reflexivity.
    + destruct (stats (ttest_ind s1 s2 true)); reflexivity.
  - destruct (stats (mannwhitneyu s1 s2)); reflexivity.
  - destruct (stats (mannwhitneyu s1 s2)); reflexivity.
Qed.

Lemma run_paired_unequal stats s1 s2 alpha :
  length s1 <> length s2 ->
  run stats s1 s2 alpha true = ([], Done (Err (Exception unequal_sizes) no_locals)).
Proof.
  intros H. apply Nat.eqb_neq in H.
  unfold run, testingCcascade. cbn. rewrite H. reflexivity.
Qed.

Lemma run_paired_equal stats s1 s2 alpha :
  length s1 = length s2 ->
  let d := zip_sub s1 s2 in
  run stats s1 s2 alpha true =
  match stats (shapiro d) with
  | inr e => ([shapiro d], Failed (shapiro d) e)
  | inl q =>
    if PrimFloat.ltb q alpha then
      match stats (wilcoxon d) with
      | inr e => ([shapiro d; wilcoxon d], Failed (wilcoxon d) e)
      | inl v => ([shapiro d; wilcoxon d],
                  Done (Ok (v, "Wilcoxon test")
                           (mkLocals None None (Some false) (Some v) None
                              (Some "Wilcoxon test") (Some d))))
      end
    else
      match stats (ttest_1samp d 0%float) with
      | inr e => ([shapiro d; ttest_1samp d 0%float],
                  Failed (ttest_1samp d 0%float) e)
      | inl v => ([shapiro d; ttest_1samp d 0%float],
                  Done (Ok (v, "Paired t-test")
                           (mkLocals None None (Some true) (Some v) None
                              (Some "Paired t-test") (Some d))))
      end
  end.
Proof.
  intros H d. apply Nat.eqb_eq in H.
  unfold run, testingCcascade, paired_, ndarray_sub. rewrite H. cbn.
  fold d.
  destruct (stats (shapiro d)) as [q | e]; cbn; [ | reflexivity ].
  destruct (PrimFloat.ltb q alpha); cbn.
  - destruct (stats (wilcoxon d)); reflexivity.
  - destruct (stats (ttest_1samp d 0%float)); reflexivity.
Qed.

(** * The element-wise difference *)

Lemma zip_sub_length (a b : ndarray) :
  length a = length b -> length (zip_sub a b) = length a.
Proof.
  revert b. induction a as [ | x a IH]; intros [ | y b] H; simpl in *;
    try discriminate; auto.
Qed.

Lemma zip_sub_nth (a b : ndarray) (i : nat) :
  length a = length b -> i < length a ->
  nth i (zip_sub a b) 0%float
  = PrimFloat.sub (nth i a 0%float) (nth i b 0%float).
Proof.
  revert b i. induction a as [ | x a IH]; intros [ | y b] i H Hi; simpl in *;
    try discriminate; try lia.
  destruct i as [ | i]; [ reflexivity | ].
  apply IH; [ congruence | lia ].
Qed.

Lemma ndarray_sub_equal (a b : ndarray) :
  length a = length b -> ndarray_sub a b = Some (zip_sub a b).
Proof.
  intros H. unfold ndarray_sub. apply Nat.eqb_eq in H. rewrite H. reflexivity.
Qed.

(** * The two semantics *)

Lemma exec_runs {A} (stats : call -> answer) (m : prog A) :
  runs (graph stats) m (fst (exec stats m)) (snd (exec stats m)).
Proof.
  induction m as [a | c k IH]; simpl.
  - constructor.
  - destruct (stats c) as [v | e] eqn:E.
    + specialize (IH v). destruct (exec stats (k v)) as [tr o]. simpl in *.
      econstructor; eauto.
    + simpl. constructor. exact E.
Qed.

Lemma runs_functional {A} (prim : call -> answer -> Prop) (m : prog A)
    tr o tr' o' :
  deterministic prim ->
  runs prim m tr o -> runs prim m tr' o' -> tr = tr' /\ o = o'.
Proof.
  intros D R. revert tr' o'.
  induction R as [a | c k v tr o Hc R IH | c k e Hc]; intros tr' o' R';
    inversion R'; subst.
  - auto.
  - assert (E : @inl float string v = inl v0) by (eapply D; eauto).
    injection E as ->.
    match goal with
    | R2 : runs _ (k _) _ _ |- _ => destruct (IH _ _ R2) as [-> ->]
    end.
    auto.
  - assert (E : @inl float string v = inr e) by (eapply D; eauto).
    discriminate.
  - assert (E : @inr float string e = inl v) by (eapply D; eauto).
    discriminate.
  - assert (E : @inr float string e = inr e0) by (eapply D; eauto).
    injection E as ->. auto.
Qed.

Lemma graph_deterministic (stats : call -> answer) :
  deterministic (graph stats).
Proof. unfold deterministic, graph. congruence. Qed.

(** Two runs of a program that stays within [cs], against primitives that
    are deterministic on [cs], are the same run. *)
Lemma runs_functional_on {A} (prim : call -> answer -> Prop) (cs : list call)
    (m : prog A) tr o tr' o' :
  within cs m -> deterministic_on prim cs ->
  runs prim m tr o -> runs prim m tr' o' -> tr = tr' /\ o = o'.
Proof.
  intros W D R. revert tr' o'.
  induction R as [a | c k v tr o Hc R IH | c k e Hc]; intros tr' o' R';
    inversion W as [ | c0 k0 Hin Hk ]; subst; inversion R'; subst.
  - auto.
  - assert (E : @inl float string v = inl v0) by (eapply D; eauto).
    injection E as ->.
    match goal with
    | R2 : runs _ (k _) _ _ |- _ =>
        destruct (IH (Hk _) _ _ R2) as [-> ->]
    end.
    auto.
  - assert (E : @inl float string v = inr e) by (eapply D; eauto).
    discriminate.
  - assert (E : @inr float string e = inl v) by (eapply D; eauto).
    discriminate.
  - assert (E : @inr float string e = inr e0) by (eapply D; eauto).
    injection E as ->. auto.
Qed.

Lemma deterministic_everywhere prim cs :
  deterministic prim -> deterministic_on prim cs.
Proof. intros D c a a' _. apply D. Qed.

(** The cascade makes no call outside [cascade_calls]: in unpaired mode the
    tests on the two samples as given, in paired mode the tests on their
    difference, and none at all when the lengths differ. *)
Lemma cascade_within s1 s2 alpha paired :
  within (cascade_calls s1 s2 paired)
         (testingCcascade s1 s2 alpha paired no_locals).
Proof.
  destruct paired.
  - unfold testingCcascade, paired_, ndarray_sub.
    destruct (Nat.eqb (length s1) (length s2)); cbn.
    + apply within_Call; [ simpl; auto | intros q; cbn ].
      destruct (PrimFloat.ltb q alpha); cbn;
        (apply within_Call; [ simpl; auto | intros v; cbn ]);
        apply within_Ret.
    + apply within_Ret.
  - unfold testingCcascade. cbn -[gtb].
    apply within_Call; [ simpl; auto | intros a; cbn -[gtb] ].
    apply within_Call; [ simpl; auto | intros b; cbn -[gtb] ].
    destruct (gtb a alpha); cbn -[gtb];
      [ destruct (gtb b alpha); cbn -[gtb] | ].
    + apply within_Call; [ simpl; auto | intros pb; cbn -[gtb] ].
      destruct (PrimFloat.ltb pb alpha); cbn -[gtb];
        (apply within_Call; [ simpl; auto 10 | intros v; cbn ]);
        apply within_Ret.
    + apply within_Call; [ simpl; auto 10 | intros v; cbn ].
      apply within_Ret.
    + apply within_Call; [ simpl; auto 10 | intros v; cbn ].
      apply within_Ret.
Qed.

(** * Properties of the cascade *)

(** No run of the unpaired branch ends in an exception of the cascade. *)
Lemma unpaired_never_raises stats s1 s2 alpha tr e l :
  run stats s1 s2 alpha false <> (tr, Done (Err e l)).
Proof. rewrite run_unpaired. cases; discriminate. Qed.

(** With primitives that answer, the unpaired branch returns: two
    Shapiro-Wilk calls, the Bartlett call or none, and one final test. *)
Lemma unpaired_returns stats s1 s2 alpha :
  answering stats ->
  exists diag final pv name l,
    run stats s1 s2 alpha false
    = (shapiro s1 :: shapiro s2 :: diag ++ [final], Done (Ok (pv, name) l))
    /\ In final [ttest_ind s1 s2 true; ttest_ind s1 s2 false;
                 mannwhitneyu s1 s2].
Proof.
  intros T. rewrite run_unpaired.
  destruct (T (shapiro s1)) as [a ->]. destruct (T (shapiro s2)) as [b ->].
  destruct (T (bartlett s1 s2)) as [pb ->].
  destruct (T (ttest_ind s1 s2 true)) as [vt ->].
  destruct (T (ttest_ind s1 s2 false)) as [vw ->].
  destruct (T (mannwhitneyu s1 s2)) as [vu ->].
  destruct (gtb a alpha && gtb b alpha);
    [ destruct (PrimFloat.ltb pb alpha) | ].
  - exists [bartlett s1 s2]. do 4 eexists. split; [ reflexivity | simpl; auto ].
  - exists [bartlett s1 s2]. do 4 eexists. split; [ reflexivity | simpl; auto ].
  - exists []. do 4 eexists. split; [ reflexivity | simpl; auto ].
Qed.

Lemma paired_returns stats s1 s2 alpha :
  answering stats -> length s1 = length s2 ->
  exists tr pv name l,
    run stats s1 s2 alpha true = (tr, Done (Ok (pv, name) l)).
Proof.
  intros T H. rewrite (run_paired_equal stats s1 s2 alpha H). cbv zeta.
  destruct (T (shapiro (zip_sub s1 s2))) as [q ->].
  destruct (T (wilcoxon (zip_sub s1 s2))) as [vw ->].
  destruct (T (ttest_1samp (zip_sub s1 s2) 0%float)) as [vt ->].
  destruct (PrimFloat.ltb q alpha); do 4 eexists; reflexivity.
Qed.

Lemma returned_name stats s1 s2 alpha paired tr pv name l :
  run stats s1 s2 alpha paired = (tr, Done (Ok (pv, name) l)) ->
  if paired then name = "Paired t-test" \/ name = "Wilcoxon test"
  else name = "t-test" \/ name = "Welch-test" \/ name = "U-test".
Proof.
  destruct paired.
  - destruct (Nat.eq_dec (length s1) (length s2)) as [E | E].
    + rewrite (run_paired_equal stats s1 s2 alpha E). cbv zeta. intros H.
      cases; inversion H; subst; simpl; auto.
    + rewrite (run_paired_unequal stats s1 s2 alpha E). discriminate.
  - rewrite run_unpaired. intros H.
    cases; inversion H; subst; simpl; auto.
Qed.

(** A Shapiro-Wilk p-value below [alpha] on either sample makes the
    normality check of the unpaired branch fail. *)
Lemma below_alpha_not_normal (a b alpha : float) :
  PrimFloat.ltb a alpha = true \/ PrimFloat.ltb b alpha = true ->
  gtb a alpha && gtb b alpha = false.
Proof.
  unfold gtb. intros [H | H]; rewrite (ltb_asym _ _ H).
  - reflexivity.
  - apply andb_false_r.
Qed.

(** The boundary of the unpaired normality check, for any [alpha]: p-values
    equal to [alpha] are not above it, the flag is false and the rank test
    runs. *)
Lemma unpaired_boundary stats s1 s2 alpha v :
  stats (shapiro s1) = inl alpha -> stats (shapiro s2) = inl alpha ->
  stats (mannwhitneyu s1 s2) = inl v ->
  run stats s1 s2 alpha false
  = ([shapiro s1; shapiro s2; mannwhitneyu s1 s2],
     Done (Ok (v, "U-test")
              (mkLocals (Some alpha) (Some alpha) (Some false) (Some v) None
                 (Some "U-test") None))).
Proof.
  intros H1 H2 H3. rewrite run_unpaired, H1, H2, H3.
  unfold gtb. rewrite ltb_irrefl. reflexivity.
Qed.

(** The two other diagnostics at the same boundary: a Bartlett p-value equal
    to [alpha] counts as equal variances, and a Shapiro-Wilk p-value of the
    paired differences equal to [alpha] counts as normal. *)
Lemma bartlett_boundary stats s1 s2 alpha a b v :
  stats (shapiro s1) = inl a -> stats (shapiro s2) = inl b ->
  gtb a alpha = true -> gtb b alpha = true ->
  stats (bartlett s1 s2) = inl alpha ->
  stats (ttest_ind s1 s2 true) = inl v ->
  run stats s1 s2 alpha false
  = ([shapiro s1; shapiro s2; bartlett s1 s2; ttest_ind s1 s2 true],
     Done (Ok (v, "t-test")
              (mkLocals (Some a) (Some b) (Some true) (Some v) (Some true)
                 (Some "t-test") None))).
Proof.
  intros H1 H2 Ha Hb H3 H4.
  rewrite run_unpaired, H1, H2, Ha, Hb, H3, ltb_irrefl, H4. reflexivity.
Qed.

Lemma paired_boundary stats s1 s2 alpha v :
  length s1 = length s2 ->
  stats (shapiro (zip_sub s1 s2)) = inl alpha ->
  stats (ttest_1samp (zip_sub s1 s2) 0%float) = inl v ->
  run stats s1 s2 alpha true
  = ([shapiro (zip_sub s1 s2); ttest_1samp (zip_sub s1 s2) 0%float],
     Done (Ok (v, "Paired t-test")
              (mkLocals None None (Some true) (Some v) None
                 (Some "Paired t-test") (Some (zip_sub s1 s2))))).
Proof.
  intros E H1 H2. rewrite (run_paired_equal stats s1 s2 alpha E). cbv zeta.
  rewrite H1, ltb_irrefl, H2. reflexivity.
Qed.

(** Where the hypothesis "not a NaN" matters: a NaN is below nothing, so a
    NaN p-value of the paired Shapiro-Wilk test passes the check. *)
Lemma paired_nan_pvalue stats s1 s2 alpha v :
  length s1 = length s2 ->
  stats (shapiro (zip_sub s1 s2)) = inl PrimFloat.nan ->
  stats (ttest_1samp (zip_sub s1 s2) 0%float) = inl v ->
  run stats s1 s2 alpha true
  = ([shapiro (zip_sub s1 s2); ttest_1samp (zip_sub s1 s2) 0%float],
     Done (Ok (v, "Paired t-test")
              (mkLocals None None (Some true) (Some v) None
                 (Some "Paired t-test") (Some (zip_sub s1 s2))))).
Proof.
  intros E H1 H2. rewrite (run_paired_equal stats s1 s2 alpha E). cbv zeta.
  rewrite H1, ltb_spec.
  change (Prim2SF PrimFloat.nan) with S754_nan. cbn [SFltb SFcompare].
  rewrite H2. reflexivity.
Qed.

(** C1, evaluated at the boundary: both Shapiro-Wilk p-values are 0.05 and
    [alpha] is 0.05. The unpaired branch sets the normality flag to false and
    returns the U-test, where the claim asks for the pair to be classified
    normal (t-test or Welch-test). The two other diagnostics of the function
    (Bartlett, and Shapiro-Wilk on the paired differences) do let a p-value
    equal to [alpha] pass. *)
Theorem C1_boundary_pvalues_select_U_test :
  run (fixed 0.05 0.5 0.75 0.625 0.25 0.5 0.5) sampleA sampleB 0.05 false
  = ([shapiro sampleA; shapiro sampleB; mannwhitneyu sampleA sampleB],
     Done (Ok (0.25%float, "U-test")
              (mkLocals (Some 0.05%float) (Some 0.05%float) (Some false)
                 (Some 0.25%float) None (Some "U-test") None))).
Proof. vm_compute. reflexivity. Qed.

(** C2: a call that returns, returns one test name of the enumeration of its
    mode: "t-test", "Welch-test" or "U-test" when [paired] is false,
    "Paired t-test" or "Wilcoxon test" when it is true; and a valid call
    (equal lengths in paired mode, primitives that answer) does return. *)
Theorem C2_test_name_in_enumeration stats s1 s2 alpha paired :
  answering stats ->
  (paired = true -> length s1 = length s2) ->
  (exists tr pv name l,
      run stats s1 s2 alpha paired = (tr, Done (Ok (pv, name) l)))
  /\ (forall tr pv name l,
         run stats s1 s2 alpha paired = (tr, Done (Ok (pv, name) l)) ->
         if paired then name = "Paired t-test" \/ name = "Wilcoxon test"
         else name = "t-test" \/ name = "Welch-test" \/ name = "U-test").
Proof.
  intros T V. split.
  - destruct paired.
    + apply paired_returns; auto.
    + destruct (unpaired_returns stats s1 s2 alpha T)
        as (diag & final & pv & name & l & R & _). eauto.
  - intros tr pv name l. apply returned_name.
Qed.

Lemma C2_witness :
  answering (fixed 0.5 0.5 0.75 0.625 0.25 0.5 0.5)
  /\ (true = true -> length sampleA = length sampleC)
  /\ exists tr pv name l,
       run (fixed 0.5 0.5 0.75 0.625 0.25 0.5 0.5) sampleA sampleC 0.05 true
       = (tr, Done (Ok (pv, name) l)).
Proof.
  assert (T : answering (fixed 0.5 0.5 0.75 0.625 0.25 0.5 0.5)).
  { intros c. destruct c; simpl; try destruct equal_var; eauto. }
  assert (V : true = true -> length sampleA = length sampleC).
  { intros _. reflexivity. }
  split; [ exact T | split; [ exact V | ] ].
  exact (proj1 (C2_test_name_in_enumeration
                  (fixed 0.5 0.5 0.75 0.625 0.25 0.5 0.5)
                  sampleA sampleC 0.05 true T V)).
Defined.

(** C3: the cascade itself raises exactly when [paired] is true and the two
    samples differ in length; the exception is then the first thing that
    happens: no primitive has been called (the list of calls is empty) and no
    local, the difference included, has been assigned. (The source raises a
    plain [Exception] with the message [unequal_sizes].) *)
Theorem C3_raises_iff_paired_length_mismatch stats s1 s2 alpha paired :
  ((exists tr e l, run stats s1 s2 alpha paired = (tr, Done (Err e l)))
   <-> (paired = true /\ length s1 <> length s2))
  /\ (paired = true -> length s1 <> length s2 ->
      run stats s1 s2 alpha paired
      = ([], Done (Err (Exception unequal_sizes) no_locals))).
Proof.
  split; [ split | ].
  - intros (tr & e & l & H). destruct paired.
    + split; [ reflexivity | ]. intros E.
      rewrite (run_paired_equal stats s1 s2 alpha E) in H. cbv zeta in H.
      cases; discriminate.
    + exfalso. exact (unpaired_never_raises _ _ _ _ _ _ _ H).
  - intros [-> E]. do 3 eexists. apply run_paired_unequal. exact E.
  - intros -> E. apply run_paired_unequal. exact E.
Qed.

Lemma C3_witness :
  run (fixed 0.5 0.5 0.75 0.625 0.25 0.5 0.5) sampleA sampleB 0.05 true
  = ([], Done (Err (Exception unequal_sizes) no_locals))
  /\ length sampleA <> length sampleB.
Proof.
  assert (E : length sampleA <> length sampleB) by (simpl; lia).
  split; [ | exact E ].
  exact (proj2 (C3_raises_iff_paired_length_mismatch
                  (fixed 0.5 0.5 0.75 0.625 0.25 0.5 0.5)
                  sampleA sampleB 0.05 true) eq_refl E).
Defined.

(** C4: in an unpaired call where both Shapiro-Wilk p-values pass the
    normality check, Bartlett's test is called; when its p-value is at least
    [alpha] the result is the p-value of the equal-variance t-test, named
    "t-test"; when it is below [alpha] the result is the p-value of the
    unequal-variance t-test, named "Welch-test". *)
Theorem C4_normal_pair_selects_t_or_Welch stats s1 s2 alpha a b :
  stats (shapiro s1) = inl a -> stats (shapiro s2) = inl b ->
  gtb a alpha = true -> gtb b alpha = true ->
  In (bartlett s1 s2) (fst (run stats s1 s2 alpha false))
  /\ (forall pb v,
         stats (bartlett s1 s2) = inl pb -> PrimFloat.leb alpha pb = true ->
         stats (ttest_ind s1 s2 true) = inl v ->
         exists l,
           run stats s1 s2 alpha false
           = ([shapiro s1; shapiro s2; bartlett s1 s2; ttest_ind s1 s2 true],
              Done (Ok (v, "t-test") l)))
  /\ (forall pb v,
         stats (bartlett s1 s2) = inl pb -> PrimFloat.ltb pb alpha = true ->
         stats (ttest_ind s1 s2 false) = inl v ->
         exists l,
           run stats s1 s2 alpha false
           = ([shapiro s1; shapiro s2; bartlett s1 s2; ttest_ind s1 s2 false],
              Done (Ok (v, "Welch-test") l))).
Proof.
  intros H1 H2 Ha Hb. rewrite run_unpaired, H1, H2, Ha, Hb. cbn [andb].
  split; [ | split ].
  - cases; simpl; auto.
  - intros pb v Hp Hge Hv. rewrite Hp, (leb_not_ltb _ _ Hge), Hv. eauto.
  - intros pb v Hp Hlt Hv. rewrite Hp, Hlt, Hv. eauto.
Qed.

Lemma C4_witness :
  (exists l,
      run (fixed 0.5 0.05 0.75 0.625 0.25 0.5 0.5) sampleA sampleB 0.05 false
      = ([shapiro sampleA; shapiro sampleB; bartlett sampleA sampleB;
          ttest_ind sampleA sampleB true],
         Done (Ok (0.75%float, "t-test") l)))
  /\ (exists l,
      run (fixed 0.5 0.01 0.75 0.625 0.25 0.5 0.5) sampleA sampleB 0.05 false
      = ([shapiro sampleA; shapiro sampleB; bartlett sampleA sampleB;
          ttest_ind sampleA sampleB false],
         Done (Ok (0.625%float, "Welch-test") l))).
Proof.
  split.
  - apply (proj1 (proj2 (C4_normal_pair_selects_t_or_Welch
                           (fixed 0.5 0.05 0.75 0.625 0.25 0.5 0.5)
                           sampleA sampleB 0.05 0.5 0.5
                           eq_refl eq_refl eq_refl eq_refl))
                 0.05%float 0.75%float); reflexivity.
  - apply (proj2 (proj2 (C4_normal_pair_selects_t_or_Welch
                           (fixed 0.5 0.01 0.75 0.625 0.25 0.5 0.5)
                           sampleA sampleB 0.05 0.5 0.5
                           eq_refl eq_refl eq_refl eq_refl))
                 0.01%float 0.625%float); reflexivity.
Defined.

(** C5: in an unpaired call where the normality check fails (one of the two
    Shapiro-Wilk p-values is not above [alpha]), the result is the p-value of
    the Mann-Whitney U test, named "U-test"; Bartlett's test is not among the
    calls made and the homoscedasticity flag is never assigned. *)
Theorem C5_non_normal_pair_selects_U_test stats s1 s2 alpha a b :
  stats (shapiro s1) = inl a -> stats (shapiro s2) = inl b ->
  gtb a alpha && gtb b alpha = false ->
  (forall x y, ~ In (bartlett x y) (fst (run stats s1 s2 alpha false)))
  /\ (forall v,
         stats (mannwhitneyu s1 s2) = inl v ->
         exists l,
           run stats s1 s2 alpha false
           = ([shapiro s1; shapiro s2; mannwhitneyu s1 s2],
              Done (Ok (v, "U-test") l))
           /\ homoscedasticity l = None).
Proof.
  intros H1 H2 Hn. rewrite run_unpaired, H1, H2, Hn. split.
  - intros x y. cases; simpl; intuition discriminate.
  - intros v Hv. rewrite Hv. eexists. split; reflexivity.
Qed.

Lemma C5_witness :
  exists l,
    run (fixed 0.01 0.5 0.75 0.625 0.25 0.5 0.5) sampleA sampleB 0.05 false
    = ([shapiro sampleA; shapiro sampleB; mannwhitneyu sampleA sampleB],
       Done (Ok (0.25%float, "U-test") l))
    /\ homoscedasticity l = None.
Proof.
  apply (proj2 (C5_non_normal_pair_selects_U_test
                  (fixed 0.01 0.5 0.75 0.625 0.25 0.5 0.5)
                  sampleA sampleB 0.05 0.01 0.01
                  eq_refl eq_refl eq_refl)).
  reflexivity.
Defined.

(** C6: in a paired call on samples of equal length, the Shapiro-Wilk test is
    called on the difference; when its p-value is at least [alpha] the result
    is the p-value of the one-sample t-test of the difference against mean 0,
    named "Paired t-test"; otherwise the result is the p-value of the
    Wilcoxon signed-rank test of the difference, named "Wilcoxon test".
    "Otherwise" is read on numbers, as the p-value and [alpha] are by the
    data model: neither is a NaN. The code's own test is [p < alpha], the
    last part. *)
Theorem C6_paired_selects_t_or_Wilcoxon stats s1 s2 alpha :
  length s1 = length s2 ->
  exists d,
    ndarray_sub s1 s2 = Some d
    /\ hd_error (fst (run stats s1 s2 alpha true)) = Some (shapiro d)
    /\ (forall q v,
           stats (shapiro d) = inl q -> PrimFloat.leb alpha q = true ->
           stats (ttest_1samp d 0%float) = inl v ->
           exists l,
             run stats s1 s2 alpha true
             = ([shapiro d; ttest_1samp d 0%float],
                Done (Ok (v, "Paired t-test") l)))
    /\ (forall q v,
           stats (shapiro d) = inl q ->
           PrimFloat.is_nan q = false -> PrimFloat.is_nan alpha = false ->
           PrimFloat.leb alpha q = false ->
           stats (wilcoxon d) = inl v ->
           exists l,
             run stats s1 s2 alpha true
             = ([shapiro d; wilcoxon d],
                Done (Ok (v, "Wilcoxon test") l)))
    /\ (forall q v,
           stats (shapiro d) = inl q -> PrimFloat.ltb q alpha = true ->
           stats (wilcoxon d) = inl v ->
           exists l,
             run stats s1 s2 alpha true
             = ([shapiro d; wilcoxon d],
                Done (Ok (v, "Wilcoxon test") l))).
Proof.
  intros E. exists (zip_sub s1 s2).
  rewrite (run_paired_equal stats s1 s2 alpha E). cbv zeta.
  split; [ apply ndarray_sub_equal; exact E | ].
  split; [ cases; reflexivity | ].
  split; [ | split ].
  - intros q v Hq Hge Hv. rewrite Hq, (leb_not_ltb _ _ Hge), Hv. eauto.
  - intros q v Hq Nq Na Hlt Hv.
    rewrite Hq, (not_leb_ltb _ _ Na Nq Hlt), Hv. eauto.
  - intros q v Hq Hlt Hv. rewrite Hq, Hlt, Hv. eauto.
Qed.

Lemma C6_witness :
  (exists l,
      run (fixed 0.05 0.5 0.75 0.625 0.25 0.5 0.125) sampleA sampleC 0.05 true
      = ([shapiro (zip_sub sampleA sampleC);
          ttest_1samp (zip_sub sampleA sampleC) 0%float],
         Done (Ok (0.5%float, "Paired t-test") l)))
  /\ (exists l,
      run (fixed 0.01 0.5 0.75 0.625 0.25 0.5 0.125) sampleA sampleC 0.05 true
      = ([shapiro (zip_sub sampleA sampleC);
          wilcoxon (zip_sub sampleA sampleC)],
         Done (Ok (0.125%float, "Wilcoxon test") l))).
Proof.
  split.
  - destruct (C6_paired_selects_t_or_Wilcoxon
                (fixed 0.05 0.5 0.75 0.625 0.25 0.5 0.125)
                sampleA sampleC 0.05 eq_refl) as (d & Hd & _ & Ht & _).
    injection Hd as <-.
    apply (Ht 0.05%float 0.5%float); reflexivity.
  - destruct (C6_paired_selects_t_or_Wilcoxon
                (fixed 0.01 0.5 0.75 0.625 0.25 0.5 0.125)
                sampleA sampleC 0.05 eq_refl) as (d & Hd & _ & _ & Hw & _).
    injection Hd as <-.
    apply (Hw 0.01%float 0.125%float); reflexivity.
Defined.

(** C7: in a paired call on samples of equal length, what the Shapiro-Wilk
    test and the final test are called on is the element-wise difference
    [d]: it has the common length and [d[i] = sample1[i] - sample2[i]] at
    every index; [d] is also what the local [diff] holds at the return. *)
Theorem C7_paired_tests_run_on_difference stats s1 s2 alpha :
  length s1 = length s2 ->
  exists d,
    length d = length s1
    /\ (forall i, i < length s1 ->
                  nth i d 0%float
                  = PrimFloat.sub (nth i s1 0%float) (nth i s2 0%float))
    /\ hd_error (fst (run stats s1 s2 alpha true)) = Some (shapiro d)
    /\ (forall c, In c (fst (run stats s1 s2 alpha true)) ->
                  c = shapiro d \/ c = ttest_1samp d 0%float
                  \/ c = wilcoxon d)
    /\ (forall r l, snd (run stats s1 s2 alpha true) = Done (Ok r l) ->
                    diff l = Some d).
Proof.
  intros E. exists (zip_sub s1 s2).
  rewrite (run_paired_equal stats s1 s2 alpha E). cbv zeta.
  split; [ apply zip_sub_length; exact E | ].
  split; [ intros i Hi; apply zip_sub_nth; assumption | ].
  split; [ cases; reflexivity | ].
  split.
  - intros c. cases; simpl; intuition auto.
  - intros r l. cases; simpl; intros H; inversion H; reflexivity.
Qed.

Lemma C7_witness :
  length sampleA = length sampleC
  /\ exists d,
       d = [0.5%float; (-0.5)%float; 0.5%float]
       /\ hd_error (fst (run (fixed 0.5 0.5 0.75 0.625 0.25 0.5 0.125)
                             sampleA sampleC 0.05 true))
          = Some (shapiro d).
Proof.
  split; [ reflexivity | ].
  destruct (C7_paired_tests_run_on_difference
              (fixed 0.5 0.5 0.75 0.625 0.25 0.5 0.125)
              sampleA sampleC 0.05 eq_refl) as (d & _ & _ & Hd & _).
  exists d. split; [ | exact Hd ].
  vm_compute in Hd. injection Hd as <-. reflexivity.
Defined.

(** The hypothesis of determinism on [cascade_calls] says nothing of a
    program that calls anything else: against [erratic_one_sample], which is
    deterministic on the calls of an unpaired cascade, a single stray call
    of a one-sample test has runs with different answers. *)
Lemma stray_call_not_deterministic :
  deterministic_on erratic_one_sample (cascade_calls sampleA sampleB false)
  /\ runs erratic_one_sample (pvalue (wilcoxon sampleA) no_locals)
          [wilcoxon sampleA] (Done (Ok 0.25%float no_locals))
  /\ runs erratic_one_sample (pvalue (wilcoxon sampleA) no_locals)
          [wilcoxon sampleA] (Done (Ok 0.75%float no_locals)).
Proof.
  split; [ | split ].
  - intros c a a' Hin Ha Ha'. simpl in Hin.
    destruct Hin as [<- | [<- | [<- | [<- | [<- | [<- | []]]]]]];
      simpl in Ha, Ha'; congruence.
  - eapply runs_Call; [ exact I | apply runs_Ret ].
  - eapply runs_Call; [ exact I | apply runs_Ret ].
Qed.

(** C8: the cascade is deterministic. The primitives may be any relation
    between calls and answers, so that the same call can be answered
    differently from one time to the next. It is enough that they are
    deterministic on the tests the cascade itself can run on these samples
    ([cascade_calls]: the cascade consults nothing else): then two runs on
    the same samples, [alpha] and pairing flag make the same calls and end
    the same way, with the same p-value and test name or the same
    exception. Primitives that are deterministic on every call are a
    special case. *)
Theorem C8_deterministic prim s1 s2 alpha paired tr o tr' o' :
  deterministic_on prim (cascade_calls s1 s2 paired) ->
  runs prim (testingCcascade s1 s2 alpha paired no_locals) tr o ->
  runs prim (testingCcascade s1 s2 alpha paired no_locals) tr' o' ->
  tr = tr' /\ o = o'.
Proof.
  intros D R R'.
  exact (runs_functional_on prim _ _ _ _ _ _
           (cascade_within s1 s2 alpha paired) D R R').
Qed.

Lemma C8_witness :
  deterministic_on erratic_one_sample (cascade_calls sampleA sampleB false)
  /\ runs erratic_one_sample
          (testingCcascade sampleA sampleB 0.05 false no_locals)
          [shapiro sampleA; shapiro sampleB; bartlett sampleA sampleB;
           ttest_ind sampleA sampleB true]
          (Done (Ok (0.75%float, "t-test")
                    (mkLocals (Some 0.5%float) (Some 0.5%float) (Some true)
                       (Some 0.75%float) (Some true) (Some "t-test") None)))
  /\ (forall tr o,
         runs erratic_one_sample
              (testingCcascade sampleA sampleB 0.05 false no_locals) tr o ->
         tr = [shapiro sampleA; shapiro sampleB; bartlett sampleA sampleB;
               ttest_ind sampleA sampleB true]
         /\ o = Done (Ok (0.75%float, "t-test")
                         (mkLocals (Some 0.5%float) (Some 0.5%float)
                            (Some true) (Some 0.75%float) (Some true)
                            (Some "t-test") None))).
Proof.
  assert (D : deterministic_on erratic_one_sample
                (cascade_calls sampleA sampleB false)).
  { intros c a a' Hin Ha Ha'. simpl in Hin.
    destruct Hin as [<- | [<- | [<- | [<- | [<- | [<- | []]]]]]];
      simpl in Ha, Ha'; congruence. }
  assert (R : runs erratic_one_sample
                (testingCcascade sampleA sampleB 0.05 false no_locals)
                [shapiro sampleA; shapiro sampleB; bartlett sampleA sampleB;
                 ttest_ind sampleA sampleB true]
                (Done (Ok (0.75%float, "t-test")
                          (mkLocals (Some 0.5%float) (Some 0.5%float)
                             (Some true) (Some 0.75%float) (Some true)
                             (Some "t-test") None)))).
  { repeat (eapply runs_Call; [ reflexivity | ]). apply runs_Ret. }
  split; [ exact D | split; [ exact R | ] ].
  intros tr o R'.
  exact (C8_deterministic erratic_one_sample sampleA sampleB 0.05 false
           _ _ _ _ D R' R).
Defined.

(** C9: no run of the unpaired branch reads an unassigned local: it never
    ends in [UnboundLocalError] (nor in any exception of the cascade). At the
    return the homoscedasticity flag is assigned whenever the normality flag
    is true, and with primitives that answer the call returns a p-value and
    a test name. *)
Theorem C9_unpaired_reads_only_assigned_locals stats s1 s2 alpha :
  (forall tr e l, run stats s1 s2 alpha false <> (tr, Done (Err e l)))
  /\ (forall tr r l,
         run stats s1 s2 alpha false = (tr, Done (Ok r l)) ->
         normality l = Some true -> exists h, homoscedasticity l = Some h)
  /\ (answering stats ->
      exists tr pv name l,
        run stats s1 s2 alpha false = (tr, Done (Ok (pv, name) l))).
Proof.
  split; [ | split ].
  - intros tr e l. apply unpaired_never_raises.
  - intros tr r l. rewrite run_unpaired.
    cases; intros H; inversion H; subst; simpl; intros N;
      try discriminate; eauto.
  - intros T.
    destruct (unpaired_returns stats s1 s2 alpha T)
      as (diag & final & pv & name & l & R & _). eauto.
Qed.

Lemma C9_witness :
  exists tr pv name l,
    run (fixed 0.01 0.5 0.75 0.625 0.25 0.5 0.125) sampleA sampleB 0.05 false
    = (tr, Done (Ok (pv, name) l)).
Proof.
  apply (proj2 (proj2 (C9_unpaired_reads_only_assigned_locals
                         (fixed 0.01 0.5 0.75 0.625 0.25 0.5 0.125)
                         sampleA sampleB 0.05))).
  intros c. destruct c; simpl; try destruct equal_var; eauto.
Defined.

(** C10: the unpaired branch has no check on lengths. Whatever the lengths
    of the two samples, with primitives that answer the call makes the two
    Shapiro-Wilk calls, the Bartlett call or none, one final test on the two
    samples, and returns its p-value and name; and whatever the primitives
    do, a call with [paired] false never raises the exception of the length
    check. *)
Theorem C10_unpaired_has_no_length_check stats s1 s2 alpha :
  (forall tr msg l,
      run stats s1 s2 alpha false <> (tr, Done (Err (Exception msg) l)))
  /\ (answering stats ->
      exists diag final pv name l,
        run stats s1 s2 alpha false
        = (shapiro s1 :: shapiro s2 :: diag ++ [final],
           Done (Ok (pv, name) l))
        /\ In final [ttest_ind s1 s2 true; ttest_ind s1 s2 false;
                     mannwhitneyu s1 s2]).
Proof.
  split.
  - intros tr msg l. apply unpaired_never_raises.
  - apply unpaired_returns.
Qed.

Lemma C10_witness :
  length sampleA <> length sampleB
  /\ exists diag final pv name l,
       run (fixed 0.5 0.5 0.75 0.625 0.25 0.5 0.125) sampleA sampleB 0.05 false
       = (shapiro sampleA :: shapiro sampleB :: diag ++ [final],
          Done (Ok (pv, name) l))
       /\ In final [ttest_ind sampleA sampleB true;
                    ttest_ind sampleA sampleB false;
                    mannwhitneyu sampleA sampleB].
Proof.
  split; [ simpl; lia | ].
  apply (proj2 (C10_unpaired_has_no_length_check
                  (fixed 0.5 0.5 0.75 0.625 0.25 0.5 0.125)
                  sampleA sampleB 0.05)).
  intros c. destruct c; simpl; try destruct equal_var; eauto.
Defined.

(** * Further properties of the cascade *)

(** ** More on float comparisons *)

Lemma SFltb_leb_trans (x y z : spec_float) :
  SFltb x y = true -> SFleb y z = true -> SFltb x z = true.
Proof.
  unfold SFltb, SFleb.
  destruct x as [sx | sx | | sx mx ex], y as [sy | sy | | sy my ey],
           z as [sz | sz | | sz mz ez];
    try destruct sx; try destruct sy; try destruct sz; simpl;
    try congruence; intros H1 H2;
    cmp_cases; simpl in *; subst; try congruence; try lia.
Qed.

Lemma SFleb_ltb_trans (x y z : spec_float) :
  SFleb x y = true -> SFltb y z = true -> SFltb x z = true.
Proof.
  unfold SFltb, SFleb.
  destruct x as [sx | sx | | sx mx ex], y as [sy | sy | | sy my ey],
           z as [sz | sz | | sz mz ez];
    try destruct sx; try destruct sy; try destruct sz; simpl;
    try congruence; intros H1 H2;
    cmp_cases; simpl in *; subst; try congruence; try lia.
Qed.

Lemma ltb_leb_trans (x y z : float) :
  PrimFloat.ltb x y = true -> PrimFloat.leb y z = true ->
  PrimFloat.ltb x z = true.
Proof. rewrite !ltb_spec, leb_spec. apply SFltb_leb_trans. Qed.

Lemma leb_ltb_trans (x y z : float) :
  PrimFloat.leb x y = true -> PrimFloat.ltb y z = true ->
  PrimFloat.ltb x z = true.
Proof. rewrite !ltb_spec, leb_spec. apply SFleb_ltb_trans. Qed.

Lemma is_nan_true (x : float) :
  PrimFloat.is_nan x = true -> Prim2SF x = S754_nan.
Proof.
  unfold PrimFloat.is_nan. rewrite eqb_spec. unfold SFeqb. intros H.
  destruct (SFcompare_refl (Prim2SF x)) as [E | E].
  - apply SFcompare_None in E. tauto.
  - rewrite E in H. discriminate.
Qed.

(** A NaN is neither below nor above anything. *)
Lemma nan_ltb_l (x y : float) :
  PrimFloat.is_nan x = true -> PrimFloat.ltb x y = false.
Proof.
  intros H. rewrite ltb_spec, (is_nan_true x H). reflexivity.
Qed.

Lemma nan_ltb_r (x y : float) :
  PrimFloat.is_nan y = true -> PrimFloat.ltb x y = false.
Proof.
  intros H. rewrite ltb_spec, (is_nan_true y H). unfold SFltb.
  destruct (Prim2SF x); reflexivity.
Qed.

(** ** How many calls, and which *)

(** A call of the function makes at most four calls into scipy.stats when
    [paired] is false and at most two when it is true. In unpaired mode each
    of them is one of the six calls written in lines 33 to 69, on the two
    samples as given: the one-sample tests are never called. *)
Theorem calls_bounded stats s1 s2 alpha paired :
  length (fst (run stats s1 s2 alpha paired)) <= (if paired then 2 else 4)
  /\ (paired = false ->
      forall c, In c (fst (run stats s1 s2 alpha paired)) ->
                In c [shapiro s1; shapiro s2; bartlett s1 s2;
                      ttest_ind s1 s2 true; ttest_ind s1 s2 false;
                      mannwhitneyu s1 s2]).
Proof.
  destruct paired.
  - split; [ | discriminate ].
    destruct (Nat.eq_dec (length s1) (length s2)) as [E | E].
    + rewrite (run_paired_equal stats s1 s2 alpha E). cbv zeta.
      cases; simpl; lia.
    + rewrite (run_paired_unequal stats s1 s2 alpha E). simpl. lia.
  - rewrite run_unpaired. split.
    + cases; simpl; lia.
    + intros _ c. cases; simpl; intuition auto.
Qed.

Lemma calls_bounded_witness :
  In (mannwhitneyu sampleA sampleB)
     [shapiro sampleA; shapiro sampleB; bartlett sampleA sampleB;
      ttest_ind sampleA sampleB true; ttest_ind sampleA sampleB false;
      mannwhitneyu sampleA sampleB].
Proof.
  apply (proj2 (calls_bounded (fixed 0.01 0.5 0.75 0.625 0.25 0.5 0.125)
                  sampleA sampleB 0.05 false) eq_refl).
  vm_compute. auto.
Defined.

(** ** One final test per call *)

(** The final tests sit in separate [if] statements, not in an [if]/[elif]
    chain; all the same a call that returns has run exactly one of them, as
    its last call, and only diagnostics before it. *)
Theorem one_final_test stats s1 s2 alpha paired tr r l :
  run stats s1 s2 alpha paired = (tr, Done (Ok r l)) ->
  exists pre c,
    tr = pre ++ [c] /\ forallb diagnostic pre = true /\ diagnostic c = false.
Proof.
  destruct paired.
  - destruct (Nat.eq_dec (length s1) (length s2)) as [E | E].
    + rewrite (run_paired_equal stats s1 s2 alpha E). cbv zeta. intros H.
      cases; inversion H; subst; split_last; auto.
    + rewrite (run_paired_unequal stats s1 s2 alpha E). discriminate.
  - rewrite run_unpaired. intros H.
    cases; inversion H; subst; split_last; auto.
Qed.

Lemma one_final_test_witness :
  exists pre c,
    [shapiro sampleA; shapiro sampleB; bartlett sampleA sampleB;
     ttest_ind sampleA sampleB false] = pre ++ [c]
    /\ forallb diagnostic pre = true /\ diagnostic c = false.
Proof.
  apply (one_final_test (fixed 0.5 0.01 0.75 0.625 0.25 0.5 0.125)
           sampleA sampleB 0.05 false _
           (0.625%float, "Welch-test")
           (mkLocals (Some 0.5%float) (Some 0.5%float) (Some true)
              (Some 0.625%float) (Some false) (Some "Welch-test") None)).
  vm_compute. reflexivity.
Defined.

(** The local [p] holds the p-value of a diagnostic before it holds the one
    of the final test. What a call returns is the answer of its last call,
    paired with the name of that test; at the return the locals [p] and
    [sigTest] hold the same two values. *)
Theorem returned_pair_is_last_call stats s1 s2 alpha paired tr pv name l :
  run stats s1 s2 alpha paired = (tr, Done (Ok (pv, name) l)) ->
  exists pre c,
    tr = pre ++ [c] /\ stats c = inl pv /\ label c = Some name
    /\ p l = Some pv /\ sigTest l = Some name.
Proof.
  destruct paired.
  - destruct (Nat.eq_dec (length s1) (length s2)) as [E | E].
    + rewrite (run_paired_equal stats s1 s2 alpha E). cbv zeta. intros H.
      cases; inversion H; subst; split_last; auto.
    + rewrite (run_paired_unequal stats s1 s2 alpha E). discriminate.
  - rewrite run_unpaired. intros H.
    cases; inversion H; subst; split_last; auto.
Qed.

Lemma returned_pair_is_last_call_witness :
  exists pre c,
    [shapiro (zip_sub sampleA sampleC); wilcoxon (zip_sub sampleA sampleC)]
    = pre ++ [c]
    /\ fixed 0.01 0.5 0.75 0.625 0.25 0.5 0.125 c = inl 0.125%float
    /\ label c = Some "Wilcoxon test"
    /\ Some 0.125%float = Some 0.125%float
    /\ Some "Wilcoxon test" = Some "Wilcoxon test".
Proof.
  apply (returned_pair_is_last_call
           (fixed 0.01 0.5 0.75 0.625 0.25 0.5 0.125)
           sampleA sampleC 0.05 true _ 0.125%float "Wilcoxon test"
           (mkLocals None None (Some false) (Some 0.125%float) None
              (Some "Wilcoxon test") (Some (zip_sub sampleA sampleC)))).
  vm_compute. reflexivity.
Defined.

(** ** When a primitive raises *)

(** A call that ends in the exception of a primitive ends at the call that
    raised: it is the last call made, and every call before it is a
    diagnostic, so no final test has been completed and nothing of it is
    returned. *)
Theorem primitive_exception_ends_call stats s1 s2 alpha paired tr c e :
  run stats s1 s2 alpha paired = (tr, Failed c e) ->
  exists pre,
    tr = pre ++ [c] /\ stats c = inr e /\ forallb diagnostic pre = true.
Proof.
  destruct paired.
  - destruct (Nat.eq_dec (length s1) (length s2)) as [E | E].
    + rewrite (run_paired_equal stats s1 s2 alpha E). cbv zeta. intros H.
      cases; inversion H; subst; split_last; auto.
    + rewrite (run_paired_unequal stats s1 s2 alpha E). discriminate.
  - rewrite run_unpaired. intros H.
    cases; inversion H; subst; split_last; auto.
Qed.

Lemma primitive_exception_ends_call_witness :
  exists pre,
    [shapiro sampleA; shapiro sampleB; bartlett sampleA sampleB;
     ttest_ind sampleA sampleB true]
    = pre ++ [ttest_ind sampleA sampleB true]
    /\ failing_finals 0.5 0.5 (ttest_ind sampleA sampleB true)
       = inr "ValueError"
    /\ forallb diagnostic pre = true.
Proof.
  apply (primitive_exception_ends_call (failing_finals 0.5 0.5)
           sampleA sampleB 0.05 false _ _ "ValueError").
  vm_compute. reflexivity.
Defined.

(** ** Reading the diagnostics off the returned name *)

(** What the name returned by an unpaired call says about the diagnostics:
    "U-test" only when the two Shapiro-Wilk p-values are not both above
    [alpha]; "t-test" and "Welch-test" only when they both are, with a
    Bartlett p-value that is not below [alpha] for the first and below
    [alpha] for the second. *)
Theorem unpaired_name_tells_diagnostics stats s1 s2 alpha tr pv name l :
  run stats s1 s2 alpha false = (tr, Done (Ok (pv, name) l)) ->
  exists a b,
    stats (shapiro s1) = inl a /\ stats (shapiro s2) = inl b
    /\ ((name = "U-test" /\ gtb a alpha && gtb b alpha = false)
        \/ (gtb a alpha = true /\ gtb b alpha = true
            /\ exists pb,
                stats (bartlett s1 s2) = inl pb
                /\ ((name = "t-test" /\ PrimFloat.ltb pb alpha = false)
                    \/ (name = "Welch-test"
                        /\ PrimFloat.ltb pb alpha = true)))).
Proof.
  rewrite run_unpaired.
  destruct (stats (shapiro s1)) as [a | e]; [ | discriminate ].
  destruct (stats (shapiro s2)) as [b | e]; [ | discriminate ].
  intros H. exists a, b. split; [ reflexivity | split; [ reflexivity | ] ].
  destruct (gtb a alpha && gtb b alpha) eqn:N.
  - right. apply andb_true_iff in N. destruct N as [Na Nb].
    split; [ exact Na | split; [ exact Nb | ] ].
    destruct (stats (bartlett s1 s2)) as [pb | e]; [ | discriminate ].
    exists pb. split; [ reflexivity | ].
    destruct (PrimFloat.ltb pb alpha); cases; inversion H; subst; auto.
  - left. cases; inversion H; subst; auto.
Qed.

Lemma unpaired_name_tells_diagnostics_witness :
  exists a b,
    fixed 0.5 0.01 0.75 0.625 0.25 0.5 0.125 (shapiro sampleA) = inl a
    /\ fixed 0.5 0.01 0.75 0.625 0.25 0.5 0.125 (shapiro sampleB) = inl b
    /\ (("Welch-test" = "U-test" /\ gtb a 0.05 && gtb b 0.05 = false)
        \/ (gtb a 0.05 = true /\ gtb b 0.05 = true
            /\ exists pb,
                fixed 0.5 0.01 0.75 0.625 0.25 0.5 0.125
                      (bartlett sampleA sampleB) = inl pb
                /\ (("Welch-test" = "t-test"
                     /\ PrimFloat.ltb pb 0.05 = false)
                    \/ ("Welch-test" = "Welch-test"
                        /\ PrimFloat.ltb pb 0.05 = true)))).
Proof.
  eapply (unpaired_name_tells_diagnostics
           (fixed 0.5 0.01 0.75 0.625 0.25 0.5 0.125)
           sampleA sampleB 0.05 _ 0.625%float "Welch-test"
           (mkLocals (Some 0.5%float) (Some 0.5%float) (Some true)
              (Some 0.625%float) (Some false) (Some "Welch-test") None)).
  vm_compute. reflexivity.
Defined.

(** The same for a paired call: it returns only on samples of equal length;
    "Wilcoxon test" only when the Shapiro-Wilk p-value of the difference is
    below [alpha], "Paired t-test" only when it is not. *)
Theorem paired_name_tells_diagnostic stats s1 s2 alpha tr pv name l :
  run stats s1 s2 alpha true = (tr, Done (Ok (pv, name) l)) ->
  length s1 = length s2
  /\ exists q,
       stats (shapiro (zip_sub s1 s2)) = inl q
       /\ ((name = "Paired t-test" /\ PrimFloat.ltb q alpha = false)
           \/ (name = "Wilcoxon test" /\ PrimFloat.ltb q alpha = true)).
Proof.
  destruct (Nat.eq_dec (length s1) (length s2)) as [E | E].
  - rewrite (run_paired_equal stats s1 s2 alpha E). cbv zeta. intros H.
    split; [ exact E | ].
    destruct (stats (shapiro (zip_sub s1 s2))) as [q | e]; [ | discriminate ].
    exists q. split; [ reflexivity | ].
    destruct (PrimFloat.ltb q alpha); cases; inversion H; subst; auto.
  - rewrite (run_paired_unequal stats s1 s2 alpha E). discriminate.
Qed.

Lemma paired_name_tells_diagnostic_witness :
  length sampleA = length sampleC
  /\ exists q,
       fixed 0.01 0.5 0.75 0.625 0.25 0.5 0.125
             (shapiro (zip_sub sampleA sampleC)) = inl q
       /\ (("Wilcoxon test" = "Paired t-test"
            /\ PrimFloat.ltb q 0.05 = false)
           \/ ("Wilcoxon test" = "Wilcoxon test"
               /\ PrimFloat.ltb q 0.05 = true)).
Proof.
  eapply (paired_name_tells_diagnostic
           (fixed 0.01 0.5 0.75 0.625 0.25 0.5 0.125)
           sampleA sampleC 0.05 _ 0.125%float "Wilcoxon test"
           (mkLocals None None (Some false) (Some 0.125%float) None
              (Some "Wilcoxon test") (Some (zip_sub sampleA sampleC)))).
  vm_compute. reflexivity.
Defined.

(** ** The significance level *)

(** [alpha] is not checked. With a NaN for [alpha] no comparison of the
    cascade holds, and the two modes fall to opposite sides: an unpaired call
    that returns has run the U-test (nothing is above a NaN), a paired call
    that returns has run the paired t-test (nothing is below a NaN). *)
Theorem nan_alpha stats s1 s2 alpha paired tr pv name l :
  PrimFloat.is_nan alpha = true ->
  run stats s1 s2 alpha paired = (tr, Done (Ok (pv, name) l)) ->
  name = if paired then "Paired t-test" else "U-test".
Proof.
  intros N H. destruct paired.
  - destruct (paired_name_tells_diagnostic _ _ _ _ _ _ _ _ H)
      as (_ & q & _ & [[-> _] | [_ L]]); [ reflexivity | ].
    rewrite (nan_ltb_r q alpha N) in L. discriminate.
  - destruct (unpaired_name_tells_diagnostics _ _ _ _ _ _ _ _ H)
      as (a & b & _ & _ & [[-> _] | (G & _)]); [ reflexivity | ].
    unfold gtb in G. rewrite (nan_ltb_l alpha a N) in G. discriminate.
Qed.

Lemma nan_alpha_witness :
  PrimFloat.is_nan PrimFloat.nan = true
  /\ run (fixed 0.5 0.5 0.75 0.625 0.25 0.5 0.125) sampleA sampleB
         PrimFloat.nan false
     = ([shapiro sampleA; shapiro sampleB; mannwhitneyu sampleA sampleB],
        Done (Ok (0.25%float, "U-test")
                 (mkLocals (Some 0.5%float) (Some 0.5%float) (Some false)
                    (Some 0.25%float) None (Some "U-test") None)))
  /\ "U-test" = "U-test".
Proof.
  assert (N : PrimFloat.is_nan PrimFloat.nan = true) by reflexivity.
  assert (R : run (fixed 0.5 0.5 0.75 0.625 0.25 0.5 0.125) sampleA sampleB
                  PrimFloat.nan false
              = ([shapiro sampleA; shapiro sampleB;
                  mannwhitneyu sampleA sampleB],
                 Done (Ok (0.25%float, "U-test")
                          (mkLocals (Some 0.5%float) (Some 0.5%float)
                             (Some false) (Some 0.25%float) None
                             (Some "U-test") None))))
    by (vm_compute; reflexivity).
  split; [ exact N | split; [ exact R | ] ].
  exact (nan_alpha _ _ _ _ false _ _ _ _ N R).
Defined.

(** Raising the significance level never moves a call from a rank test to a
    parametric one: a call that returns the U-test or the Wilcoxon test at
    [alpha] makes the same calls and returns the same p-value and name at
    any [alpha'] that is at least [alpha]. *)
Theorem rank_test_stays_at_larger_alpha stats s1 s2 alpha alpha' paired
    tr pv name l :
  PrimFloat.leb alpha alpha' = true ->
  run stats s1 s2 alpha paired = (tr, Done (Ok (pv, name) l)) ->
  name = "U-test" \/ name = "Wilcoxon test" ->
  run stats s1 s2 alpha' paired = (tr, Done (Ok (pv, name) l)).
Proof.
  intros L H Hn. destruct paired.
  - destruct (paired_name_tells_diagnostic _ _ _ _ _ _ _ _ H)
      as (E & q & Hq & D).
    assert (Lq : PrimFloat.ltb q alpha = true).
    { destruct D as [[-> _] | [_ Lq]]; [ | exact Lq ].
      destruct Hn; discriminate. }
    rewrite (run_paired_equal stats s1 s2 alpha E) in H.
    rewrite (run_paired_equal stats s1 s2 alpha' E).
    cbv zeta in *. rewrite Hq in *.
    rewrite Lq in H. rewrite (ltb_leb_trans _ _ _ Lq L). exact H.
  - destruct (unpaired_name_tells_diagnostics _ _ _ _ _ _ _ _ H)
      as (a & b & Ha & Hb & D).
    assert (N : gtb a alpha && gtb b alpha = false).
    { destruct D as [[_ N] | (_ & _ & pb & _ & [[-> _] | [-> _]])];
        [ exact N | destruct Hn; discriminate .. ]. }
    assert (N' : gtb a alpha' && gtb b alpha' = false).
    { unfold gtb in *.
      destruct (PrimFloat.ltb alpha' a) eqn:Ga; [ | reflexivity ].
      destruct (PrimFloat.ltb alpha' b) eqn:Gb; [ | reflexivity ].
      rewrite (leb_ltb_trans _ _ _ L Ga), (leb_ltb_trans _ _ _ L Gb) in N.
      discriminate. }
    rewrite run_unpaired in *. rewrite Ha, Hb in *.
    rewrite N in H. rewrite N'. exact H.
Qed.

Lemma rank_test_stays_at_larger_alpha_witness :
  PrimFloat.leb 0.05 0.1 = true
  /\ run (fixed 0.03 0.5 0.75 0.625 0.25 0.5 0.125) sampleA sampleC 0.1 true
     = ([shapiro (zip_sub sampleA sampleC);
         wilcoxon (zip_sub sampleA sampleC)],
        Done (Ok (0.125%float, "Wilcoxon test")
                 (mkLocals None None (Some false) (Some 0.125%float) None
                    (Some "Wilcoxon test")
                    (Some (zip_sub sampleA sampleC))))).
Proof.
  split; [ reflexivity | ].
  apply (rank_test_stays_at_larger_alpha
           (fixed 0.03 0.5 0.75 0.625 0.25 0.5 0.125)
           sampleA sampleC 0.05 0.1 true).
  - reflexivity.
  - vm_compute. reflexivity.
  - right. reflexivity.
Defined.

(** ** NaN p-values *)

(** A diagnostic that answers NaN is not handled apart, and the comparisons
    decide: in unpaired mode a NaN from either Shapiro-Wilk test counts as
    not normal (the U-test runs) and a NaN from Bartlett's test counts as
    equal variances (never the Welch-test); in paired mode a NaN from the
    Shapiro-Wilk test counts as normal (the paired t-test runs). *)
Theorem nan_pvalue stats s1 s2 alpha paired q tr pv name l :
  PrimFloat.is_nan q = true ->
  run stats s1 s2 alpha paired = (tr, Done (Ok (pv, name) l)) ->
  (paired = false ->
   stats (shapiro s1) = inl q \/ stats (shapiro s2) = inl q ->
   name = "U-test")
  /\ (paired = false -> stats (bartlett s1 s2) = inl q ->
      name <> "Welch-test")
  /\ (paired = true -> stats (shapiro (zip_sub s1 s2)) = inl q ->
      name = "Paired t-test").
Proof.
  intros N H. split; [ | split ].
  - intros -> Hq.
    destruct (unpaired_name_tells_diagnostics _ _ _ _ _ _ _ _ H)
      as (a & b & Ha & Hb & [[-> _] | (Ga & Gb & _)]); [ reflexivity | ].
    unfold gtb in *. destruct Hq as [Hq | Hq].
    + rewrite Hq in Ha. injection Ha as <-.
      rewrite (nan_ltb_r alpha q N) in Ga. discriminate.
    + rewrite Hq in Hb. injection Hb as <-.
      rewrite (nan_ltb_r alpha q N) in Gb. discriminate.
  - intros -> Hq.
    destruct (unpaired_name_tells_diagnostics _ _ _ _ _ _ _ _ H)
      as (a & b & _ & _ & [[-> _] | (_ & _ & pb & Hp & D)]);
      [ discriminate | ].
    rewrite Hq in Hp. injection Hp as <-.
    destruct D as [[-> _] | [_ L]]; [ discriminate | ].
    rewrite (nan_ltb_l q alpha N) in L. discriminate.
  - intros -> Hq.
    destruct (paired_name_tells_diagnostic _ _ _ _ _ _ _ _ H)
      as (_ & q' & Hq' & D).
    rewrite Hq in Hq'. injection Hq' as <-.
    destruct D as [[-> _] | [_ L]]; [ reflexivity | ].
    rewrite (nan_ltb_l q alpha N) in L. discriminate.
Qed.

Lemma nan_pvalue_witness :
  run (fixed PrimFloat.nan 0.5 0.75 0.625 0.25 0.5 0.125) sampleA sampleC
      0.05 true
  = ([shapiro (zip_sub sampleA sampleC);
      ttest_1samp (zip_sub sampleA sampleC) 0%float],
     Done (Ok (0.5%float, "Paired t-test")
              (mkLocals None None (Some true) (Some 0.5%float) None
                 (Some "Paired t-test") (Some (zip_sub sampleA sampleC)))))
  /\ "Paired t-test" = "Paired t-test".
Proof.
  assert (R : run (fixed PrimFloat.nan 0.5 0.75 0.625 0.25 0.5 0.125)
                  sampleA sampleC 0.05 true
              = ([shapiro (zip_sub sampleA sampleC);
                  ttest_1samp (zip_sub sampleA sampleC) 0%float],
                 Done (Ok (0.5%float, "Paired t-test")
                          (mkLocals None None (Some true) (Some 0.5%float)
                             None (Some "Paired t-test")
                             (Some (zip_sub sampleA sampleC))))))
    by (vm_compute; reflexivity).
  split; [ exact R | ].
  exact (proj2 (proj2 (nan_pvalue _ _ _ _ true PrimFloat.nan _ _ _ _
                         eq_refl R))
               eq_refl eq_refl).
Defined.

(** ** The order of the two samples *)

(** Which test an unpaired call selects does not depend on which sample is
    passed first, as long as Bartlett's test answers the same for both
    orders: the normality check is a conjunction over the two samples. *)
Theorem unpaired_selection_symmetric stats s1 s2 alpha
    tr pv name l tr' pv' name' l' :
  stats (bartlett s1 s2) = stats (bartlett s2 s1) ->
  run stats s1 s2 alpha false = (tr, Done (Ok (pv, name) l)) ->
  run stats s2 s1 alpha false = (tr', Done (Ok (pv', name') l')) ->
  name = name'.
Proof.
  intros B H H'.
  destruct (unpaired_name_tells_diagnostics _ _ _ _ _ _ _ _ H)
    as (a & b & Ha & Hb & D).
  destruct (unpaired_name_tells_diagnostics _ _ _ _ _ _ _ _ H')
    as (b' & a' & Hb' & Ha' & D').
  rewrite Ha in Ha'. injection Ha' as <-.
  rewrite Hb in Hb'. injection Hb' as <-.
  rewrite andb_comm in D'.
  destruct D as [[-> N] | (Ga & Gb & pb & Hp & D)];
    destruct D' as [[-> N'] | (Gb' & Ga' & pb' & Hp' & D')].
  - reflexivity.
  - rewrite Ga', Gb' in N. discriminate.
  - rewrite Ga, Gb in N'. discriminate.
  - rewrite B, Hp' in Hp. injection Hp as <-.
    destruct D as [[-> L] | [-> L]]; destruct D' as [[-> L'] | [-> L']];
      congruence.
Qed.

Lemma unpaired_selection_symmetric_witness :
  fixed 0.5 0.01 0.75 0.625 0.25 0.5 0.125 (bartlett sampleA sampleB)
  = fixed 0.5 0.01 0.75 0.625 0.25 0.5 0.125 (bartlett sampleB sampleA)
  /\ "Welch-test" = "Welch-test".
Proof.
  split; [ reflexivity | ].
  apply (unpaired_selection_symmetric
           (fixed 0.5 0.01 0.75 0.625 0.25 0.5 0.125)
           sampleA sampleB 0.05
           [shapiro sampleA; shapiro sampleB; bartlett sampleA sampleB;
            ttest_ind sampleA sampleB false]
           0.625%float "Welch-test"
           (mkLocals (Some 0.5%float) (Some 0.5%float) (Some true)
              (Some 0.625%float) (Some false) (Some "Welch-test") None)
           [shapiro sampleB; shapiro sampleA; bartlett sampleB sampleA;
            ttest_ind sampleB sampleA false]
           0.625%float "Welch-test"
           (mkLocals (Some 0.5%float) (Some 0.5%float) (Some true)
              (Some 0.625%float) (Some false) (Some "Welch-test") None));
    vm_compute; reflexivity.
Defined.

(** ** Paired mode sees the differences only *)

(** Two paired calls on samples of equal lengths whose element-wise
    differences are the same make the same calls and end the same way: past
    the length check the two samples are used through [diff] alone. *)
Theorem paired_depends_on_difference stats s1 s2 t1 t2 alpha :
  length s1 = length s2 -> length t1 = length t2 ->
  zip_sub s1 s2 = zip_sub t1 t2 ->
  run stats s1 s2 alpha true = run stats t1 t2 alpha true.
Proof.
  intros E E' D.
  rewrite (run_paired_equal stats s1 s2 alpha E),
          (run_paired_equal stats t1 t2 alpha E').
  cbv zeta. rewrite D. reflexivity.
Qed.

Lemma paired_depends_on_difference_witness :
  run (fixed 0.5 0.5 0.75 0.625 0.25 0.5 0.125) sampleA sampleC 0.05 true
  = run (fixed 0.5 0.5 0.75 0.625 0.25 0.5 0.125)
        [0.5%float; (-0.5)%float; 0.5%float] [0%float; 0%float; 0%float]
        0.05 true.
Proof.
  apply (paired_depends_on_difference
           (fixed 0.5 0.5 0.75 0.625 0.25 0.5 0.125)
           sampleA sampleC
           [0.5%float; (-0.5)%float; 0.5%float] [0%float; 0%float; 0%float]
           0.05); reflexivity.
Defined.
